(** * screenwatch: a shallow embedding of [screenwatch/monitor.py]

    The program watches udev for DRM hot-plug events, debounces them with
    a [threading.Timer], waits for the connectors to settle and then runs
    a configured command unless the desktop environment is excluded.

    Layout of this development:
    - [PyStr]: the [str] methods the source calls ([split], [strip],
      [lower], the [in] operator), over ASCII text;
    - the effect monad [M]: a reader over the outside world, a state for
      the process and an outcome that is a value or a raised exception;
    - the methods of [ScreenMonitor], one definition per method, named as
      in the source;
    - the theorems, one group per method. *)

From Stdlib Require Import ZArith String Ascii List Bool Lia.
From Corelib Require Import PrimFloat.
From stdpp Require Import base option list gmap strings.

Set Warnings "-inexact-float".
Set Default Proof Using "Type".
Local Open Scope Z_scope.

(* ================================================================== *)
(** ** Python strings *)
(* ================================================================== *)

(** A Python [str] is modelled as a [string] of 8-bit characters that
    stand for the ASCII repertoire: characters above 127 have no case and
    are not white space here. *)
Module PyStr.

(** [str.isspace] on one ASCII character: TAB, LF, VT, FF, CR, the four
    separators FS, GS, RS, US, and the space. *)
Definition isspace (c : ascii) : bool :=
  let n := N_of_ascii c in
  (((9 <=? n) && (n <=? 13)) || ((28 <=? n) && (n <=? 32)))%N.

(** [bool(s)]: a string is truthy when it is not empty. *)
Definition nonempty (s : string) : bool :=
  match s with
  | EmptyString => false
  | String _ _ => true
  end.

Fixpoint lstrip (s : string) : string :=
  match s with
  | EmptyString => EmptyString
  | String c s' => if isspace c then lstrip s' else s
  end.

Fixpoint rstrip (s : string) : string :=
  match s with
  | EmptyString => EmptyString
  | String c s' =>
      match rstrip s' with
      | EmptyString => if isspace c then EmptyString else String c EmptyString
      | r => String c r
      end
  end.

(** [s.strip()] *)
Definition strip (s : string) : string := rstrip (lstrip s).

Definition lower_char (c : ascii) : ascii :=
  let n := N_of_ascii c in
  if ((65 <=? n) && (n <=? 90))%N then ascii_of_N (n + 32) else c.

(** [s.lower()] *)
Fixpoint lower (s : string) : string :=
  match s with
  | EmptyString => EmptyString
  | String c s' => String (lower_char c) (lower s')
  end.

(** [s.split(sep)] for a one-character separator: [n] separators give
    [n + 1] pieces, and the empty string gives one empty piece. *)
Fixpoint split (sep : ascii) (s : string) : list string :=
  match s with
  | EmptyString => [EmptyString]
  | String c s' =>
      if Ascii.eqb c sep then EmptyString :: split sep s'
      else match split sep s' with
           | p :: ps => String c p :: ps
           | [] => [String c EmptyString]
           end
  end.

(** [needle in hay] *)
Fixpoint contains (needle hay : string) : bool :=
  String.prefix needle hay ||
  match hay with
  | EmptyString => false
  | String _ hay' => contains needle hay'
  end.

(** [sep.join(pieces)], used only to state that [split] loses nothing. *)
Fixpoint join (sep : ascii) (pieces : list string) : string :=
  match pieces with
  | [] => EmptyString
  | [p] => p
  | p :: ps => p +:+ String sep (join sep ps)
  end.

(** What "substring" means: [a] occurs in [b] as a contiguous run. *)
Definition substring_of (a b : string) : Prop :=
  exists pre post, b = pre +:+ a +:+ post.

End PyStr.


(* ================================================================== *)
(** ** The outside world and the state of the process *)
(* ================================================================== *)

(** The four keys of the [DEFAULT] section of the configuration, held as
    the strings [configparser] stores. *)
Record Config := {
  command : string;
  excluded_desktops : string;
  debounce_delay : string;
  log_level : string
}.

(** The defaults set by [_load_config]. *)
Definition default_config : Config := {|
  command := "autorandr -c";
  excluded_desktops := "COSMIC,GNOME,KDE,Plasma,XFCE,X-Cinnamon";
  debounce_delay := "2.0";
  log_level := "INFO"
|}.

(** A [pyudev.Device] as the source reads it. [action] is [None] for a
    device that was enumerated rather than received; [attributes] maps
    each name of [attributes.available_attributes] to what
    [attributes.asstring] gives for it: [Some v], or [None] when the read
    raises. *)
Record Device := {
  action : option string;
  sys_name : string;
  device_type : option string;
  attributes : gmap string (option string)
}.

(** What [subprocess.run(command, shell=True, capture_output=True,
    text=True, timeout=30)] does: it completes, it raises
    [subprocess.TimeoutExpired], or it raises some other subclass of
    [Exception] (carried as its text). *)
Inductive RunOutcome :=
| Completed (returncode : Z) (stdout stderr : string)
| RunTimeout
| RunError (what : string).

(** The clock counts milliseconds. *)
Definition time := Z.

(** Everything the program reads and does not own. *)
Record World := {
  environ : gmap string string;          (* os.environ *)
  config : Config;                       (* self.config['DEFAULT'] *)
  drm : nat -> list Device;              (* the k-th enumeration of subsystem drm *)
  subprocess : nat -> string -> RunOutcome;  (* the k-th spawn, by command *)
  float_ms : string -> option time       (* float(s) in milliseconds; None: ValueError *)
}.

Inductive Level := DEBUG | INFO | WARNING | ERROR.

(** The log records of the source, one constructor per call site, with
    the values its format string interpolates. *)
Inductive Message :=
| MsgDetectedDesktop (var desktop : string)
| MsgNoDesktop
| MsgDesktopExcluded (desktop : string)
| MsgExecuting (cmd : string)
| MsgSuccess
| MsgOutput (stdout : string)
| MsgFailed (returncode : Z)
| MsgStderr (stderr : string)
| MsgTimedOut
| MsgExecError (what : string)
| MsgWaiting
| MsgDetectedDisplays (connected : nat) (waited : float)
| MsgFinishedWaiting (waited : float)
| MsgDeviceEvent (act : option string) (name : string)
| MsgExcludedExiting
| MsgStarting
| MsgCommandToExecute (cmd : string)
| MsgMonitoring
| MsgInterrupt
| MsgLoopError (what : string).

(** The observable effects, in the order they happen. *)
Inductive Event :=
| Log (lvl : Level) (msg : Message)
| Sleep (seconds : float)                  (* time.sleep *)
| UdevContext                              (* pyudev.Context() *)
| ListDevices (subsystem : string)         (* context.list_devices *)
| Spawn (cmd : string) (timeout : Z)       (* subprocess.run *)
| NetlinkOpen                              (* pyudev.Monitor.from_netlink *)
| FilterBy (subsystem : string)            (* monitor.filter_by *)
| TimerStart (id : nat) (interval : time)  (* Timer(...).start() *)
| TimerCancel (id : nat)                   (* timer.cancel() *)
| TimerFired (id : nat) (at_time : time).  (* the timer thread calls its function *)

(** A [threading.Timer]. [interval] is its constructor argument,
    [started] the clock value at [start()] ([None] before), and
    [finished] its [finished] event: set by [cancel()], and set by the
    timer thread once it has called the function. The thread sleeps for
    [interval], then calls the function unless [finished] is set. *)
Record Timer := {
  interval : time;
  started : option time;
  finished : bool
}.

(** The state of the process. [timers] holds every [Timer] object ever
    created, in creation order; [debounce_timer] is the attribute of the
    same name, a reference into [timers]. *)
Record State := {
  clock : time;
  timers : list Timer;
  debounce_timer : option nat;
  scans : nat;             (* enumerations of the drm subsystem so far *)
  spawns : nat;            (* calls of subprocess.run so far *)
  trace : list Event
}.

(** [ScreenMonitor.__init__]: no timer. *)
Definition init_state : State := {|
  clock := 0;
  timers := [];
  debounce_timer := None;
  scans := 0%nat;
  spawns := 0%nat;
  trace := []
|}.

(* ================================================================== *)
(** ** The effect monad *)
(* ================================================================== *)

(** The exceptions that matter to the control flow of the source.
    [KeyboardInterrupt] derives from [BaseException] only, so
    [except Exception] lets it through. *)
Inductive Exn :=
| TimeoutExpired
| KeyboardInterrupt
| Exception (what : string).

(** How a call ends. [OutOfFuel] belongs to the model: a loop was cut
    off by its iteration budget. *)
Inductive Outcome (A : Type) :=
| Ok (a : A)
| Raise (e : Exn)
| OutOfFuel.
Arguments Ok {A} a.
Arguments Raise {A} e.
Arguments OutOfFuel {A}.

Definition M (A : Type) : Type := World -> State -> Outcome A * State.

#[global] Instance M_ret : MRet M := fun A a _ s => (Ok a, s).

#[global] Instance M_bind : MBind M := fun A B k m w s =>
  match m w s with
  | (Ok a, s') => k a w s'
  | (Raise e, s') => (Raise e, s')
  | (OutOfFuel, s') => (OutOfFuel, s')
  end.

Definition raise {A} (e : Exn) : M A := fun _ s => (Raise e, s).
Definition out_of_fuel {A} : M A := fun _ s => (OutOfFuel, s).

(** [try: body  except ...: handler]; the handler re-raises what none of
    its clauses catches. *)
Definition try_except {A} (body : M A) (handler : Exn -> M A) : M A :=
  fun w s =>
    match body w s with
    | (Raise e, s') => handler e w s'
    | r => r
    end.

Definition ask : M World := fun w s => (Ok w, s).
Definition get : M State := fun _ s => (Ok s, s).

Definition set_clock (t : time) (s : State) : State :=
  {| clock := t; timers := timers s; debounce_timer := debounce_timer s;
     scans := scans s; spawns := spawns s; trace := trace s |}.
Definition set_timers (ts : list Timer) (s : State) : State :=
  {| clock := clock s; timers := ts; debounce_timer := debounce_timer s;
     scans := scans s; spawns := spawns s; trace := trace s |}.
Definition set_debounce_timer (t : option nat) (s : State) : State :=
  {| clock := clock s; timers := timers s; debounce_timer := t;
     scans := scans s; spawns := spawns s; trace := trace s |}.
Definition set_scans (n : nat) (s : State) : State :=
  {| clock := clock s; timers := timers s; debounce_timer := debounce_timer s;
     scans := n; spawns := spawns s; trace := trace s |}.
Definition set_spawns (n : nat) (s : State) : State :=
  {| clock := clock s; timers := timers s; debounce_timer := debounce_timer s;
     scans := scans s; spawns := n; trace := trace s |}.
Definition add_trace (es : list Event) (s : State) : State :=
  {| clock := clock s; timers := timers s; debounce_timer := debounce_timer s;
     scans := scans s; spawns := spawns s; trace := trace s ++ es |}.

Definition modify (f : State -> State) : M unit := fun _ s => (Ok tt, f s).
Definition emit (e : Event) : M unit := modify (add_trace [e]).
Definition log (lvl : Level) (msg : Message) : M unit := emit (Log lvl msg).
Definition sleep (seconds : float) : M unit := emit (Sleep seconds).

(** The state a computation leaves and the outcome it gives. *)
Definition exec {A} (m : M A) (w : World) (s : State) : State := snd (m w s).
Definition eval {A} (m : M A) (w : World) (s : State) : Outcome A := fst (m w s).

(* ================================================================== *)
(** ** The library calls the source makes *)
(* ================================================================== *)

Record CompletedProcess := {
  returncode : Z;
  stdout : string;
  stderr : string
}.

(** [subprocess.run(cmd, shell=True, capture_output=True, text=True,
    timeout=...)] *)
Definition subprocess_run (cmd : string) (timeout : Z) : M CompletedProcess :=
  w ← ask;
  s ← get;
  modify (set_spawns (S (spawns s)));;
  emit (Spawn cmd timeout);;
  match subprocess w (spawns s) cmd with
  | Completed rc out err =>
      mret {| returncode := rc; stdout := out; stderr := err |}
  | RunTimeout => raise TimeoutExpired
  | RunError what => raise (Exception what)
  end.

(** [context.list_devices(subsystem=...)], consumed by the [for]. *)
Definition list_devices (subsystem : string) : M (list Device) :=
  w ← ask;
  s ← get;
  modify (set_scans (S (scans s)));;
  emit (ListDevices subsystem);;
  mret (drm w (scans s)).

(** [attr in device.attributes.available_attributes] *)
Definition attribute_available (device : Device) (attr : string) : bool :=
  match attributes device !! attr with
  | Some _ => true
  | None => false
  end.

(** [device.attributes.asstring(attr)]: raises when the attribute cannot
    be read. *)
Definition asstring (device : Device) (attr : string) : M string :=
  match attributes device !! attr with
  | Some (Some v) => mret v
  | _ => raise (Exception "attribute read failed")
  end.

(** [float(s)] *)
Definition py_float (s : string) : M time :=
  w ← ask;
  match float_ms w s with
  | Some d => mret d
  | None => raise (Exception "ValueError")
  end.

(** [Timer(interval, function)]: a new object, not started. *)
Definition timer_new (delay : time) : M nat :=
  s ← get;
  modify (set_timers
            (timers s ++ [{| interval := delay; started := None; finished := false |}]));;
  mret (length (timers s)).

Definition start_at (now : time) (tm : Timer) : Timer :=
  {| interval := interval tm; started := Some now; finished := finished tm |}.

Definition set_finished (tm : Timer) : Timer :=
  {| interval := interval tm; started := started tm; finished := true |}.

(** [timer.start()] *)
Definition timer_start (id : nat) : M unit :=
  s ← get;
  modify (set_timers (alter (start_at (clock s)) id (timers s)));;
  emit (TimerStart id (default 0 (interval <$> timers s !! id))).

(** [timer.cancel()] *)
Definition timer_cancel (id : nat) : M unit :=
  s ← get;
  modify (set_timers (alter set_finished id (timers s)));;
  emit (TimerCancel id).

(** A timer is pending when its thread has been started and neither
    [cancel()] nor the call of its function has set [finished]. *)
Definition pending (tm : Timer) : bool :=
  match started tm with
  | Some _ => negb (finished tm)
  | None => false
  end.

(** The instant at which the thread of a pending timer wakes up. *)
Definition due (now : time) (tm : Timer) : bool :=
  match started tm with
  | Some t0 => negb (finished tm) && (t0 + interval tm <=? now)
  | None => false
  end.

Definition wake_time (tm : Timer) : time :=
  default 0 (started tm) + interval tm.

(** The timer threads between two instants: every pending timer whose
    interval has elapsed by [now] calls its function, no earlier than
    [from], and is finished. Returns the timers and the firings. *)
Fixpoint fire_due (from now : time) (id : nat) (ts : list Timer)
  : list Timer * list Event :=
  match ts with
  | [] => ([], [])
  | tm :: rest =>
      let (rest', fired) := fire_due from now (S id) rest in
      if due now tm
      then (set_finished tm :: rest',
            TimerFired id (Z.max from (wake_time tm)) :: fired)
      else (tm :: rest', fired)
  end.

(** Time passes until [t] (the main thread is blocked in
    [monitor.poll]): the timers that come due fire; a wake-up that falls
    on [t] itself is taken to come first. *)
Definition elapse (t : time) : M unit :=
  s ← get;
  let (ts, fired) := fire_due (clock s) t 0 (timers s) in
  modify (set_timers ts);;
  modify (add_trace fired);;
  modify (set_clock (Z.max (clock s) t)).

(* ================================================================== *)
(** ** The methods of [ScreenMonitor] *)
(* ================================================================== *)

Definition desktop_variables : list string :=
  ["XDG_CURRENT_DESKTOP"; "XDG_SESSION_DESKTOP"; "DESKTOP_SESSION"]%string.

(** The [for var in ...] loop of [_get_desktop_environment], with the
    statements after the loop at the end of the list. *)
Fixpoint get_desktop_environment_from (vars : list string) : M (option string) :=
  match vars with
  | [] =>
      log DEBUG MsgNoDesktop;;
      mret None
  | var :: rest =>
      w ← ask;
      let desktop := PyStr.strip (default ""%string (environ w !! var)) in
      if PyStr.nonempty desktop then
        log DEBUG (MsgDetectedDesktop var desktop);;
        mret (Some desktop)
      else get_desktop_environment_from rest
  end.

(** [_get_desktop_environment] *)
Definition get_desktop_environment : M (option string) :=
  get_desktop_environment_from desktop_variables.

(** [excluded] of [_is_desktop_excluded], lines 78-79: the pieces
    between commas that are not blank, stripped and lower-cased. *)
Definition excluded_list (cfg : Config) : list string :=
  let excluded := PyStr.split "," (excluded_desktops cfg) in
  List.map (fun d => PyStr.lower (PyStr.strip d))
           (List.filter (fun d => PyStr.nonempty (PyStr.strip d)) excluded).

(** The [for excluded_de in excluded] loop, lines 84-89. *)
Fixpoint match_excluded (desktop desktop_lower : string) (excluded : list string)
  : M bool :=
  match excluded with
  | [] => mret false
  | excluded_de :: rest =>
      if PyStr.contains excluded_de desktop_lower
         || PyStr.contains desktop_lower excluded_de
      then
        log INFO (MsgDesktopExcluded desktop);;
        mret true
      else match_excluded desktop desktop_lower rest
  end.

(** The truth value of an optional string: [None] and [''] are false. *)
Definition truthy (o : option string) : bool :=
  match o with
  | Some s => PyStr.nonempty s
  | None => false
  end.

(** [_is_desktop_excluded] *)
Definition is_desktop_excluded : M bool :=
  desktop ← get_desktop_environment;
  if negb (truthy desktop) then mret false
  else
    let desktop := default ""%string desktop in
    w ← ask;
    let excluded := excluded_list (config w) in
    let desktop_lower := PyStr.lower desktop in
    match_excluded desktop desktop_lower excluded.

(** [_execute_command] *)
Definition execute_command : M unit :=
  excluded ← is_desktop_excluded;
  if (excluded : bool) then mret tt
  else
    w ← ask;
    let cmd := command (config w) in
    log INFO (MsgExecuting cmd);;
    try_except
      (result ← subprocess_run cmd 30;
       if returncode result =? 0 then
         log INFO MsgSuccess;;
         if PyStr.nonempty (stdout result)
         then log DEBUG (MsgOutput (stdout result))
         else mret tt
       else
         log WARNING (MsgFailed (returncode result));;
         if PyStr.nonempty (stderr result)
         then log WARNING (MsgStderr (stderr result))
         else mret tt)
      (fun e =>
         match e with
         | TimeoutExpired => log ERROR MsgTimedOut
         | Exception what => log ERROR (MsgExecError what)
         | KeyboardInterrupt => raise KeyboardInterrupt
         end).

(** The [for device in context.list_devices(subsystem='drm')] loop,
    lines 154-162, with [connected] as the accumulator. *)
Fixpoint count_connected (devices : list Device) (connected : nat) : M nat :=
  match devices with
  | [] => mret connected
  | device :: rest =>
      connected ←
        (if PyStr.contains "card" (sys_name device)
            && attribute_available device "status"
         then
           try_except
             (status ← asstring device "status";
              if String.eqb status "connected"
              then mret (S connected)
              else mret connected)
             (fun _ => mret connected)
         else mret connected);
      count_connected rest connected
  end.

(** Lines 153-162: one scan of the drm subsystem, giving [connected]. *)
Definition probe : M nat :=
  devices ← list_devices "drm";
  count_connected devices 0%nat.

Definition max_wait : float := 5.0%float.
Definition check_interval : float := 0.2%float.

(** The [while waited < max_wait] loop, lines 151-169, and the two
    statements that follow it, lines 171-172. [fuel] bounds the number
    of iterations. *)
Fixpoint poll_displays (fuel : nat) (waited : float) : M bool :=
  if (waited <? max_wait)%float then
    match fuel with
    | O => out_of_fuel
    | S fuel =>
        connected ← probe;
        if (0 <? connected)%nat then
          log DEBUG (MsgDetectedDisplays connected waited);;
          mret true
        else
          sleep check_interval;;
          poll_displays fuel (waited + check_interval)%float
    end
  else
    log DEBUG (MsgFinishedWaiting waited);;
    mret true.

(** [_wait_for_displays_ready] *)
Definition wait_for_displays_ready (fuel : nat) : M bool :=
  let waited := 0.0%float in
  log DEBUG MsgWaiting;;
  sleep 1.0%float;;
  let waited := (waited + 1.0)%float in
  emit UdevContext;;
  poll_displays fuel waited.

(** [execute_with_wait], the function every timer is created with: what
    a timer thread runs after a [TimerFired]. *)
Definition execute_with_wait (fuel : nat) : M unit :=
  wait_for_displays_ready fuel;;
  execute_command.

(** [if self.debounce_timer: self.debounce_timer.cancel()], lines
    124-125 and 206-207. *)
Definition cancel_debounce_timer : M unit :=
  s ← get;
  match debounce_timer s with
  | Some t => timer_cancel t
  | None => mret tt
  end.

(** Lines 127-134: read the delay, create the timer, store it, start it. *)
Definition arm_debounce_timer : M unit :=
  w ← ask;
  delay ← py_float (debounce_delay (config w));
  t ← timer_new delay;
  modify (set_debounce_timer (Some t));;
  timer_start t.

(** [_debounced_execute] *)
Definition debounced_execute : M unit :=
  cancel_debounce_timer;;
  arm_debounce_timer.

(** The two tests of [_handle_device_event]. *)
Definition action_handled (device : Device) : bool :=
  bool_decide (action device ∈ [Some "change"; Some "add"; Some "remove"]%string).

Definition display_device (device : Device) : bool :=
  PyStr.contains "card" (sys_name device)
  || bool_decide (device_type device = Some "drm_minor"%string).

(** [_handle_device_event] *)
Definition handle_device_event (device : Device) : M unit :=
  if action_handled device then
    if display_device device then
      log DEBUG (MsgDeviceEvent (action device) (sys_name device));;
      debounced_execute
    else mret tt
  else mret tt.

(** What [monitor.poll()] gives the loop: a device, a
    [KeyboardInterrupt], or another exception. *)
Inductive PollResult :=
| Received (device : Device)
| Interrupted
| Failed (what : string).

(** The [for device in iter(monitor.poll, None)] loop over a finite
    prefix of what [poll] gives, each with its arrival time. [None]: the
    prefix is used up and the loop is blocked in [poll]. *)
Fixpoint monitor_loop (inputs : list (time * PollResult)) : M (option Z) :=
  match inputs with
  | [] => mret None
  | (t, Received device) :: rest =>
      elapse t;;
      handle_device_event device;;
      monitor_loop rest
  | (t, Interrupted) :: _ =>
      elapse t;;
      raise KeyboardInterrupt
  | (t, Failed what) :: _ =>
      elapse t;;
      raise (Exception what)
  end.

(** [monitor]: the exit status, or [None] while the loop is blocked. *)
Definition monitor (inputs : list (time * PollResult)) : M (option Z) :=
  excluded ← is_desktop_excluded;
  if (excluded : bool) then
    log INFO MsgExcludedExiting;;
    mret (Some 0)
  else
    log INFO MsgStarting;;
    w ← ask;
    log INFO (MsgCommandToExecute (command (config w)));;
    emit UdevContext;;
    emit NetlinkOpen;;
    emit (FilterBy "drm");;
    log INFO MsgMonitoring;;
    try_except
      (monitor_loop inputs)
      (fun e =>
         match e with
         | KeyboardInterrupt =>
             log INFO MsgInterrupt;;
             cancel_debounce_timer;;
             mret (Some 0)
         | TimeoutExpired => log ERROR (MsgLoopError "TimeoutExpired");; mret (Some 1)
         | Exception what => log ERROR (MsgLoopError what);; mret (Some 1)
         end).

(** [main]: a fresh [ScreenMonitor], then [monitor()]. *)
Definition main (w : World) (inputs : list (time * PollResult))
  : Outcome (option Z) * State :=
  monitor inputs w init_state.

(* ================================================================== *)
(** ** Loading the configuration *)
(* ================================================================== *)

(** What [config.read(location)] finds in a file that exists: a file it
    cannot open (which [read] skips in silence), a file it cannot parse
    (which makes it raise), or the options of the file's [DEFAULT]
    section, by lower-cased name. *)
Inductive ConfigFile :=
| Unreadable
| Malformed (what : string)
| Options (opts : gmap string string).

(** The file system as [_load_config] sees it: [Path.home()], without a
    trailing slash, and the paths that exist. *)
Record Files := {
  home : string;
  files : gmap string ConfigFile
}.

(** The options of a file laid over the values the parser holds. *)
Definition config_read (cfg : Config) (opts : gmap string string) : Config :=
  {| command := default (command cfg) (opts !! "command"%string);
     excluded_desktops :=
       default (excluded_desktops cfg) (opts !! "excluded_desktops"%string);
     debounce_delay := default (debounce_delay cfg) (opts !! "debounce_delay"%string);
     log_level := default (log_level cfg) (opts !! "log_level"%string) |}.

(** [config_locations], lines 35-42. *)
Definition config_locations (fs : Files) (config_path : option string)
  : list string :=
  (if truthy config_path then [default ""%string config_path] else [])
  ++ [home fs +:+ "/.config/screenwatch/config.ini";
      "/etc/screenwatch/config.ini"%string].

(** The [for location in config_locations] loop, lines 44-47: the first
    location that exists is read and ends the loop. *)
Fixpoint read_first (fs : Files) (locations : list string) (cfg : Config)
  : Outcome Config :=
  match locations with
  | [] => Ok cfg
  | location :: rest =>
      match files fs !! location with
      | Some (Options opts) => Ok (config_read cfg opts)
      | Some Unreadable => Ok cfg
      | Some (Malformed what) => Raise (Exception what)
      | None => read_first fs rest cfg
      end
  end.

(** [_load_config] *)
Definition load_config (fs : Files) (config_path : option string)
  : Outcome Config :=
  read_first fs (config_locations fs config_path) default_config.

(** [config_path] of [main], lines 216-218. *)
Definition config_path_of_argv (argv : list string) : option string :=
  match argv with
  | _ :: path :: _ => Some path
  | _ => None
  end.

(* ================================================================== *)
(** ** Vocabulary of the statements *)
(* ================================================================== *)

(** The configured fragments as written: the pieces between commas that
    are not blank, stripped; [excluded_list] is their lower-casing. *)
Definition excluded_fragments (cfg : Config) : list string :=
  List.map PyStr.strip
    (List.filter (fun d => PyStr.nonempty (PyStr.strip d))
                 (PyStr.split "," (excluded_desktops cfg))).

(** A connector that reports "connected": a drm device whose name has
    "card" in it and whose [status] attribute reads [connected]. *)
Definition connected_connector (device : Device) : bool :=
  PyStr.contains "card" (sys_name device)
  && bool_decide (attributes device !! "status"%string = Some (Some "connected"%string)).

Definition connected_count (devices : list Device) : nat :=
  length (List.filter connected_connector devices).

(** The value of [waited] at the head of the loop after [k] rounds. *)
Fixpoint waited_after (k : nat) : float :=
  match k with
  | O => (0.0 + 1.0)%float
  | S k => (waited_after k + check_interval)%float
  end.

(** The effects of [k] rounds of the loop that saw no display. *)
Fixpoint fruitless_rounds (k : nat) : list Event :=
  match k with
  | O => []
  | S k => ListDevices "drm" :: Sleep check_interval :: fruitless_rounds k
  end.

(** The instants at which timer threads called [execute_with_wait]. *)
Fixpoint firings (tr : list Event) : list time :=
  match tr with
  | [] => []
  | TimerFired _ t :: tr => t :: firings tr
  | _ :: tr => firings tr
  end.


Definition is_probe (e : Event) : bool :=
  match e with ListDevices _ => true | _ => false end.

Definition opens_event_source (e : Event) : bool :=
  match e with UdevContext | NetlinkOpen | FilterBy _ => true | _ => false end.

Definition is_detection (e : Event) : bool :=
  match e with
  | Log _ (MsgDetectedDesktop _ _) | Log _ MsgNoDesktop => true
  | _ => false
  end.

(** How many timers are pending. *)
Definition pending_count (s : State) : nat :=
  length (List.filter pending (timers s)).


(** The first variable of [vars] whose stripped value is not empty,
    with that value. *)
Fixpoint detect (env : gmap string string) (vars : list string)
  : option (string * string) :=
  match vars with
  | [] => None
  | var :: rest =>
      let desktop := PyStr.strip (default ""%string (env !! var)) in
      if PyStr.nonempty desktop then Some (var, desktop) else detect env rest
  end.

(** One fragment against the lower-cased desktop, either way round. *)
Definition fragment_matches (desktop_lower excluded_de : string) : bool :=
  PyStr.contains excluded_de desktop_lower
  || PyStr.contains desktop_lower excluded_de.

(** The verdict of the exclusion policy in a world. *)
Definition excluded_in (w : World) : bool :=
  match detect (environ w) desktop_variables with
  | Some (_, desktop) =>
      existsb (fragment_matches (PyStr.lower desktop)) (excluded_list (config w))
  | None => false
  end.

(** What one evaluation of the exclusion policy logs. *)
Definition exclusion_logs (w : World) : list Event :=
  match detect (environ w) desktop_variables with
  | Some (var, desktop) =>
      Log DEBUG (MsgDetectedDesktop var desktop)
      :: (if excluded_in w then [Log INFO (MsgDesktopExcluded desktop)] else [])
  | None => [Log DEBUG MsgNoDesktop]
  end.

(** What [_execute_command] logs for each way the command can end. *)
Definition outcome_logs (o : RunOutcome) : list Event :=
  match o with
  | Completed rc out err =>
      if rc =? 0
      then Log INFO MsgSuccess
           :: (if PyStr.nonempty out then [Log DEBUG (MsgOutput out)] else [])
      else Log WARNING (MsgFailed rc)
           :: (if PyStr.nonempty err then [Log WARNING (MsgStderr err)] else [])
  | RunTimeout => [Log ERROR MsgTimedOut]
  | RunError what => [Log ERROR (MsgExecError what)]
  end.

(** The state [_execute_command] leaves. *)
Definition after_execute (w : World) (s : State) : State :=
  if excluded_in w then add_trace (exclusion_logs w) s
  else
    let cmd := command (config w) in
    add_trace (exclusion_logs w
               ++ [Log INFO (MsgExecuting cmd); Spawn cmd 30]
               ++ outcome_logs (subprocess w (spawns s) cmd))
              (set_spawns (S (spawns s)) s).

(** What [_wait_for_displays_ready] does when [k] rounds see no
    display: the settle delay, the [k] rounds, and then either the scan
    that sees one ([k < 20]) or the end of the wait ([k = 20]). *)
Definition wait_events (w : World) (s : State) (k : nat) : list Event :=
  [Log DEBUG MsgWaiting; Sleep 1.0%float; UdevContext]
  ++ fruitless_rounds k
  ++ (if (k <? 20)%nat
      then [ListDevices "drm";
            Log DEBUG (MsgDetectedDisplays
                         (connected_count (drm w (scans s + k)))
                         (waited_after k))]
      else [Log DEBUG (MsgFinishedWaiting (waited_after 20))]).

Definition after_wait (w : World) (s : State) (k : nat) : State :=
  add_trace (wait_events w s k)
            (set_scans (scans s + if (k <? 20)%nat then S k else k) s).

(** The state after lines 124-125. *)
Definition cancelled (s : State) : State :=
  match debounce_timer s with
  | Some t =>
      add_trace [TimerCancel t]
                (set_timers (alter set_finished t (timers s)) s)
  | None => s
  end.

(** The state after lines 127-134 when the delay reads as [d]. *)
Definition rearmed (d : time) (s : State) : State :=
  add_trace [TimerStart (length (timers s)) d]
    (set_timers
       (timers s ++ [{| interval := d; started := Some (clock s); finished := false |}])
       (set_debounce_timer (Some (length (timers s))) s)).

(** No timer is pending. *)
Definition quiet (s : State) : Prop :=
  Forall (fun tm => pending tm = false) (timers s).


(** Exactly the newest timer is pending; it was started at [t0] for [d]. *)
Definition armed (d t0 : time) (s : State) : Prop :=
  exists old,
    timers s = old ++ [{| interval := d; started := Some t0; finished := false |}]
    /\ Forall (fun tm => pending tm = false) old
    /\ debounce_timer s = Some (length old)
    /\ clock s = t0.

(** The loop inputs for a list of timed device events, and the arrival
    time of the last of them. *)
Definition received (events : list (time * Device)) : list (time * PollResult) :=
  List.map (fun e => (fst e, Received (snd e))) events.


(** The filter of [_handle_device_event], in words. *)
Definition display_event (device : Device) : Prop :=
  (action device = Some "add"%string \/ action device = Some "change"%string
   \/ action device = Some "remove"%string)
  /\ (PyStr.substring_of "card" (sys_name device)
      \/ device_type device = Some "drm_minor"%string).


(** Sample worlds and devices. *)
Definition connector (name st : string) : Device :=
  {| action := None; sys_name := name; device_type := None;
     attributes := {[ "status"%string := Some st ]} |}.

Definition hotplug (act name : string) : Device :=
  {| action := Some act; sys_name := name;
     device_type := Some "drm_minor"%string; attributes := ∅ |}.

Definition sample_float (s : string) : option time :=
  if String.eqb s "0.1" then Some 100
  else if String.eqb s "2.0" then Some 2000
  else None.

(** A session whose desktop is [desktop] and whose exclusion list is
    [excluded]; one connector is plugged in and the command succeeds. *)
Definition desktop_world (desktop excluded : string) : World :=
  {| environ := {[ "XDG_CURRENT_DESKTOP"%string := desktop ]};
     config := {| command := "autorandr -c"; excluded_desktops := excluded;
                  debounce_delay := "0.1"; log_level := "INFO" |};
     drm := fun _ => [connector "card0-HDMI-A-1" "connected"];
     subprocess := fun _ _ => Completed 0 "" "";
     float_ms := sample_float |}.

(** A session with no desktop variable set, nothing plugged in, and a
    command that behaves as [outcome]. *)
Definition bare_world (outcome : RunOutcome) : World :=
  {| environ := ∅;
     config := {| command := "autorandr -c"; excluded_desktops := "kde";
                  debounce_delay := "0.1"; log_level := "INFO" |};
     drm := fun _ => [connector "card0-HDMI-A-1" "disconnected"];
     subprocess := fun _ _ => outcome;
     float_ms := sample_float |}.




(** The effects that block: sleeping, scanning the devices, running the
    command. *)
Definition blocking (e : Event) : bool :=
  match e with
  | Sleep _ | ListDevices _ | Spawn _ _ => true
  | _ => false
  end.

(** The state in which [monitor] enters its loop when the desktop is not
    excluded: the policy has been evaluated and the event source opened. *)
Definition monitoring (w : World) (s : State) : State :=
  add_trace (exclusion_logs w
             ++ [Log INFO MsgStarting;
                 Log INFO (MsgCommandToExecute (command (config w)));
                 UdevContext; NetlinkOpen; FilterBy "drm";
                 Log INFO MsgMonitoring]) s.


(** A world with another value for [excluded_desktops]. *)
Definition with_excluded (w : World) (value : string) : World :=
  {| environ := environ w;
     config := {| command := command (config w); excluded_desktops := value;
                  debounce_delay := debounce_delay (config w);
                  log_level := log_level (config w) |};
     drm := drm w; subprocess := subprocess w; float_ms := float_ms w |}.

(** A file system with the given files and home [/home/u]. *)
Definition sample_files (fl : list (string * ConfigFile)) : Files :=
  {| home := "/home/u"; files := list_to_map fl |}.

(* ================================================================== *)
(** ** Strings *)
(* ================================================================== *)

Section PyStrFacts.
Import PyStr.
#[local] Arguments String.append !_ _ / : simpl nomatch.

Lemma prefix_spec (a b : string) :
  String.prefix a b = true <-> exists post, b = a +:+ post.
Proof.
  revert b. induction a as [|c a IH]; intros b; simpl.
  - split; [intros _; now exists b | intros _; now destruct b].
  - destruct b as [|c' b]; simpl.
    + split; [discriminate | intros [post H]; discriminate].
    + destruct (ascii_dec c c') as [->|Hne].
      * rewrite IH. split; intros [post H]; exists post; simpl in *; congruence.
      * split; [discriminate | intros [post H]; simpl in H; congruence].
Qed.

(** [contains] is the substring relation. *)
Lemma contains_spec (a b : string) :
  contains a b = true <-> substring_of a b.
Proof.
  unfold substring_of. induction b as [|c b IH]; cbn [contains].
  - rewrite orb_false_r, prefix_spec. split.
    + intros [post H]. now exists ""%string, post.
    + intros [pre [post H]]. destruct pre; simpl in H.
      * now exists post.
      * discriminate.
  - rewrite orb_true_iff, prefix_spec, IH. split.
    + intros [[post H]|[pre [post H]]].
      * now exists ""%string, post.
      * exists (String c pre), post. simpl. now rewrite H.
    + intros [pre [post H]]. destruct pre as [|c' pre]; simpl in H.
      * left. now exists post.
      * right. exists pre, post. congruence.
Qed.

Lemma lower_nonempty (s : string) : nonempty (lower s) = nonempty s.
Proof. now destruct s. Qed.

Lemma nonempty_true (s : string) : nonempty s = true <-> s <> ""%string.
Proof. destruct s; simpl; split; congruence. Qed.


Lemma split_not_nil (sep : ascii) (s : string) : split sep s <> [].
Proof.
  induction s as [|c s IH]; simpl; [discriminate |].
  destruct (Ascii.eqb c sep); [discriminate |].
  destruct (split sep s); [contradiction | discriminate].
Qed.

(** [split] loses nothing: joining the pieces gives the string back. *)
Lemma join_split (sep : ascii) (s : string) : join sep (split sep s) = s.
Proof.
  induction s as [|c s IH]; simpl; [reflexivity |].
  destruct (Ascii.eqb_spec c sep) as [->|Hne].
  - pose proof (split_not_nil sep s) as Hnil.
    destruct (split sep s) as [|p ps]; [contradiction |].
    simpl in *. now rewrite IH.
  - pose proof (split_not_nil sep s) as Hnil.
    destruct (split sep s) as [|p ps]; [contradiction |].
    simpl in *. destruct ps; simpl in *; now rewrite <- IH.
Qed.

(** No piece holds the separator. *)
Lemma split_no_separator (sep : ascii) (s p : string) :
  In p (split sep s) -> ~ substring_of (String sep "") p.
Proof.
  revert p. induction s as [|c s IH]; simpl; intros p Hin.
  - destruct Hin as [<-|[]]. intros [pre [post H]]. destruct pre; discriminate.
  - destruct (Ascii.eqb_spec c sep) as [->|Hne].
    + destruct Hin as [<-|Hin]; [|now apply IH].
      intros [pre [post H]]. destruct pre; discriminate.
    + pose proof (split_not_nil sep s) as Hnil.
      destruct (split sep s) as [|q qs]; [contradiction |].
      destruct Hin as [<-|Hin]; [|apply IH; now right].
      intros [pre [post H]]. destruct pre as [|c' pre]; simpl in H.
      * inversion H; contradiction.
      * apply (IH q); [now left |]. exists pre, post. simpl. congruence.
Qed.




End PyStrFacts.

(* ================================================================== *)
(** ** Running the monad *)
(* ================================================================== *)

Ltac run :=
  unfold mbind, M_bind, mret, M_ret, log, sleep, emit, modify, ask, get,
    raise, out_of_fuel, try_except in *; simpl in *.

Lemma add_trace_nil (s : State) : add_trace [] s = s.
Proof. destruct s. unfold add_trace. simpl. now rewrite app_nil_r. Qed.

Lemma add_trace_add_trace (a b : list Event) (s : State) :
  add_trace b (add_trace a s) = add_trace (a ++ b) s.
Proof. unfold add_trace. simpl. now rewrite app_assoc. Qed.

Lemma bind_run {A B} (m : M A) (k : A -> M B) (w : World) (s : State) :
  (m ≫= k) w s =
  match m w s with
  | (Ok a, s') => k a w s'
  | (Raise e, s') => (Raise e, s')
  | (OutOfFuel, s') => (OutOfFuel, s')
  end.
Proof. reflexivity. Qed.

Lemma bind_ok {A B} (m : M A) (k : A -> M B) (w : World) (s s' : State) (a : A) :
  m w s = (Ok a, s') -> (m ≫= k) w s = k a w s'.
Proof. intros H. rewrite bind_run, H. reflexivity. Qed.

(* ================================================================== *)
(** ** The exclusion policy *)
(* ================================================================== *)

Section Exclusion.
Import PyStr.

Lemma get_desktop_environment_from_run (vars : list string) (w : World) (s : State) :
  get_desktop_environment_from vars w s =
  (Ok (snd <$> detect (environ w) vars),
   add_trace [Log DEBUG (match detect (environ w) vars with
                         | Some (var, desktop) => MsgDetectedDesktop var desktop
                         | None => MsgNoDesktop
                         end)] s).
Proof.
  induction vars as [|var rest IH]; [reflexivity |].
  cbn [get_desktop_environment_from detect]. rewrite bind_run. cbn [ask].
  destruct (nonempty (strip (default ""%string (environ w !! var)))); [reflexivity | exact IH].
Qed.

Lemma detect_nonempty env vars var desktop :
  detect env vars = Some (var, desktop) -> nonempty desktop = true.
Proof.
  induction vars as [|v rest IH]; simpl; [discriminate |].
  destruct (nonempty (strip (default ""%string (env !! v)))) eqn:E; [|exact IH].
  intros [= <- <-]. exact E.
Qed.

Lemma match_excluded_run (desktop desktop_lower : string) (excluded : list string)
      (w : World) (s : State) :
  match_excluded desktop desktop_lower excluded w s =
  (Ok (existsb (fragment_matches desktop_lower) excluded),
   add_trace (if existsb (fragment_matches desktop_lower) excluded
              then [Log INFO (MsgDesktopExcluded desktop)] else []) s).
Proof.
  induction excluded as [|e rest IH]; cbn [match_excluded existsb].
  - now rewrite add_trace_nil.
  - unfold fragment_matches at 1 3.
    destruct (contains e desktop_lower || contains desktop_lower e); [reflexivity | exact IH].
Qed.

(** One evaluation of the policy: its verdict and its log records. *)
Lemma is_desktop_excluded_run (w : World) (s : State) :
  is_desktop_excluded w s = (Ok (excluded_in w), add_trace (exclusion_logs w) s).
Proof.
  unfold is_desktop_excluded, get_desktop_environment, excluded_in, exclusion_logs.
  rewrite bind_run, get_desktop_environment_from_run.
  destruct (detect (environ w) desktop_variables) as [[var desktop]|] eqn:E; simpl.
  - rewrite (detect_nonempty _ _ _ _ E). simpl.
    rewrite bind_run. cbn [ask]. rewrite match_excluded_run, add_trace_add_trace.
    unfold excluded_in. rewrite E. reflexivity.
  - reflexivity.
Qed.

Lemma excluded_list_lower (cfg : Config) :
  excluded_list cfg = List.map lower (excluded_fragments cfg).
Proof. unfold excluded_list, excluded_fragments. now rewrite List.map_map. Qed.

Lemma excluded_fragments_nonempty (cfg : Config) (e : string) :
  In e (excluded_fragments cfg) -> e <> ""%string.
Proof.
  unfold excluded_fragments. rewrite in_map_iff. intros [p [<- Hp]].
  apply filter_In in Hp as [_ Hp]. now apply nonempty_true.
Qed.


Lemma eval_is_desktop_excluded (w : World) (s : State) :
  eval is_desktop_excluded w s = Ok (excluded_in w).
Proof. unfold eval. now rewrite is_desktop_excluded_run. Qed.



(** C10. The empty string is never an element of the list that is
    matched, and a configured value all of whose comma-separated pieces
    are empty or blank excludes nothing, whatever the desktop. *)
Theorem blank_fragments_exclude_nothing (w : World) (s : State) :
  ~ In ""%string (excluded_list (config w))
  /\ ((forall p, In p (split "," (excluded_desktops (config w))) ->
                 strip p = ""%string) ->
      excluded_list (config w) = []
      /\ eval is_desktop_excluded w s = Ok false).
Proof.
  split.
  - rewrite excluded_list_lower, in_map_iff. intros [e [He Hin]].
    apply excluded_fragments_nonempty in Hin. destruct e; [easy | discriminate].
  - intros Hblank.
    assert (excluded_list (config w) = []) as Hnil.
    { unfold excluded_list.
      induction (split "," (excluded_desktops (config w))) as [|p ps IH];
        [reflexivity |].
      simpl. rewrite (Hblank p (or_introl eq_refl)). simpl.
      apply IH. intros q Hq. apply Hblank. now right. }
    split; [exact Hnil |].
    rewrite eval_is_desktop_excluded. unfold excluded_in. rewrite Hnil.
    now destruct (detect (environ w) desktop_variables) as [[? ?]|].
Qed.

Lemma blank_fragments_exclude_nothing_witness :
  (forall p, In p (split "," (excluded_desktops (config (desktop_world "GNOME" " , ,")))) ->
             strip p = ""%string)
  /\ eval is_desktop_excluded (desktop_world "GNOME" " , ,") init_state = Ok false.
Proof.
  assert (forall p, In p (split "," (excluded_desktops (config (desktop_world "GNOME" " , ,")))) ->
                    strip p = ""%string) as H.
  { simpl. intros p [<-|[<-|[<-|[]]]]; reflexivity. }
  split; [exact H |].
  exact (proj2 (proj2 (blank_fragments_exclude_nothing
                         (desktop_world "GNOME" " , ,") init_state) H)).
Defined.

End Exclusion.

(* ================================================================== *)
(** ** The readiness probe *)
(* ================================================================== *)

Section Probe.
Import PyStr.

Lemma count_connected_cons (device : Device) (devices : list Device) (n : nat)
      (w : World) (s : State) :
  count_connected (device :: devices) n w s =
  count_connected devices (if connected_connector device then S n else n) w s.
Proof.
  cbn [count_connected]. rewrite bind_run.
  unfold connected_connector, attribute_available, asstring, try_except.
  destruct (contains "card" (sys_name device)); [|reflexivity].
  destruct (attributes device !! "status"%string) as [[v|]|]; simpl;
    [|reflexivity|reflexivity].
  rewrite bind_run. simpl.
  destruct (String.eqb_spec v "connected") as [->|Hne].
  - rewrite bool_decide_eq_true_2; reflexivity.
  - rewrite bool_decide_eq_false_2; [reflexivity | congruence].
Qed.

Lemma connected_count_cons (device : Device) (devices : list Device) :
  connected_count (device :: devices) =
  ((if connected_connector device then 1 else 0) + connected_count devices)%nat.
Proof.
  unfold connected_count. simpl. now destruct (connected_connector device).
Qed.

(** The inner loop never raises and touches nothing. *)
Lemma count_connected_run (devices : list Device) (n : nat) (w : World) (s : State) :
  count_connected devices n w s = (Ok (n + connected_count devices)%nat, s).
Proof.
  revert n. induction devices as [|device devices IH]; intros n.
  - simpl. unfold connected_count. simpl. now rewrite Nat.add_0_r.
  - rewrite count_connected_cons, IH, connected_count_cons.
    destruct (connected_connector device); do 2 f_equal; lia.
Qed.

Lemma probe_run (w : World) (s : State) :
  probe w s = (Ok (connected_count (drm w (scans s))),
               add_trace [ListDevices "drm"] (set_scans (S (scans s)) s)).
Proof.
  unfold probe, list_devices. run. now rewrite count_connected_run.
Qed.

(** C8. One scan is total: for every enumeration it returns, without
    raising and without any other effect, the number of connector
    devices (name containing "card") whose status reads "connected". A
    device with no status attribute is skipped, a device whose status
    cannot be read counts as not connected, and a device whose status
    reads "connected" adds one. *)
Theorem probe_counts_connected (w : World) (s : State) :
  (forall devices n,
      count_connected devices n w s = (Ok (n + connected_count devices)%nat, s))
  /\ eval probe w s = Ok (connected_count (drm w (scans s)))
  /\ (forall device devices n,
         attributes device !! "status"%string = None ->
         count_connected (device :: devices) n w s = count_connected devices n w s)
  /\ (forall device devices n,
         attributes device !! "status"%string = Some None ->
         count_connected (device :: devices) n w s = count_connected devices n w s)
  /\ (forall device devices n,
         substring_of "card" (sys_name device) ->
         attributes device !! "status"%string = Some (Some "connected"%string) ->
         count_connected (device :: devices) n w s
         = count_connected devices (S n) w s)
  /\ (forall device devices n v,
         attributes device !! "status"%string = Some (Some v) ->
         v <> "connected"%string ->
         count_connected (device :: devices) n w s = count_connected devices n w s)
  /\ (forall devices, connected_count devices <= length devices)%nat.
Proof.
  split; [intros; apply count_connected_run |].
  split; [unfold eval; now rewrite probe_run |].
  repeat split; intros.
  - rewrite count_connected_cons. unfold connected_connector.
    rewrite H, andb_false_r. reflexivity.
  - rewrite count_connected_cons. unfold connected_connector.
    rewrite H, andb_false_r. reflexivity.
  - rewrite count_connected_cons. unfold connected_connector.
    apply contains_spec in H. rewrite H, H0. reflexivity.
  - rewrite count_connected_cons. unfold connected_connector.
    rewrite H, bool_decide_eq_false_2, andb_false_r; [reflexivity | congruence].
  - unfold connected_count. apply List.filter_length_le.
Qed.

End Probe.

(* ================================================================== *)
(** ** The action trigger *)
(* ================================================================== *)

Section ActionTrigger.
Import PyStr.

(** [_execute_command] returns, whatever the command does. *)
Lemma execute_command_run (w : World) (s : State) :
  execute_command w s = (Ok tt, after_execute w s).
Proof.
  unfold execute_command, after_execute.
  rewrite bind_run, is_desktop_excluded_run.
  destruct (excluded_in w); [reflexivity |].
  unfold subprocess_run. run.
  destruct (subprocess w (spawns s) (command (config w))) as [rc out err| |what];
    simpl.
  - destruct (rc =? 0); simpl.
    + destruct (nonempty out); simpl; unfold add_trace, set_spawns; simpl;
        repeat rewrite <- app_assoc; reflexivity.
    + destruct (nonempty err); simpl; unfold add_trace, set_spawns; simpl;
        repeat rewrite <- app_assoc; reflexivity.
  - unfold add_trace, set_spawns; simpl; repeat rewrite <- app_assoc; reflexivity.
  - unfold add_trace, set_spawns; simpl; repeat rewrite <- app_assoc; reflexivity.
Qed.

Lemma after_execute_frame (w : World) (s : State) :
  clock (after_execute w s) = clock s
  /\ timers (after_execute w s) = timers s
  /\ debounce_timer (after_execute w s) = debounce_timer s
  /\ scans (after_execute w s) = scans s.
Proof. unfold after_execute. now destruct (excluded_in w). Qed.




End ActionTrigger.

(* ================================================================== *)
(** ** Waiting for the displays *)
(* ================================================================== *)

Section Readiness.

(** [waited] stays below [max_wait] for twenty rounds and reaches it
    with the twentieth [+= check_interval], in binary64 arithmetic. *)
Lemma waited_below (j : nat) :
  (j < 20)%nat -> (waited_after j <? max_wait)%float = true.
Proof.
  intros H. do 20 (destruct j as [|j]; [vm_compute; reflexivity |]). lia.
Qed.

Lemma waited_reached : (waited_after 20 <? max_wait)%float = false.
Proof. vm_compute. reflexivity. Qed.

Lemma poll_displays_eq (fuel : nat) (waited : float) :
  poll_displays fuel waited =
  if (waited <? max_wait)%float then
    match fuel with
    | O => out_of_fuel
    | S fuel =>
        connected ← probe;
        if (0 <? connected)%nat then
          log DEBUG (MsgDetectedDisplays connected waited);;
          mret true
        else
          sleep check_interval;;
          poll_displays fuel (waited + check_interval)%float
    end
  else
    log DEBUG (MsgFinishedWaiting waited);;
    mret true.
Proof. destruct fuel; reflexivity. Qed.

Lemma set_scans_same (s : State) (n : nat) : n = scans s -> set_scans n s = s.
Proof. intros ->. now destruct s. Qed.

(** The loop from round [j] on, with [n] rounds left before [max_wait]:
    it ends after [k] fruitless rounds, either on a scan that sees a
    display or because [waited] has reached [max_wait]. *)
Lemma poll_displays_run (n : nat) :
  forall (j fuel : nat) (w : World) (s : State),
    (j + n = 20)%nat -> (n <= fuel)%nat ->
    exists k,
      (k <= n)%nat
      /\ (forall i, (i < k)%nat -> connected_count (drm w (scans s + i)) = 0%nat)
      /\ ((k < n)%nat -> (0 < connected_count (drm w (scans s + k)))%nat)
      /\ poll_displays fuel (waited_after j) w s =
         (Ok true,
          add_trace
            (fruitless_rounds k ++
             if (k <? n)%nat
             then [ListDevices "drm";
                   Log DEBUG (MsgDetectedDisplays
                                (connected_count (drm w (scans s + k)))
                                (waited_after (j + k)))]
             else [Log DEBUG (MsgFinishedWaiting (waited_after 20))])
            (set_scans (scans s + if (k <? n)%nat then S k else k) s)).
Proof.
  induction n as [|n IH]; intros j fuel w s Hj Hfuel.
  - exists 0%nat. split; [lia |]. split; [intros i Hi; lia |]. split; [lia |].
    assert (j = 20%nat) as -> by lia.
    rewrite poll_displays_eq, waited_reached. simpl.
    rewrite set_scans_same by lia. reflexivity.
  - destruct fuel as [|fuel]; [lia |].
    rewrite poll_displays_eq, waited_below by lia.
    rewrite bind_run, probe_run. cbn beta iota.
    destruct (0 <? connected_count (drm w (scans s)))%nat eqn:E.
    + exists 0%nat. split; [lia |]. split; [intros i Hi; lia |].
      rewrite !Nat.add_0_r. split; [intros _; now apply Nat.ltb_lt |].
      unfold log, emit, modify. rewrite bind_run. simpl.
      unfold add_trace, set_scans, mret, M_ret; simpl.
      do 2 f_equal; [lia | now rewrite <- app_assoc].
    + apply Nat.ltb_ge in E.
      unfold sleep, emit, modify. rewrite bind_run. cbn beta iota.
      change (waited_after j + check_interval)%float with (waited_after (S j)).
      destruct (IH (S j) fuel w
                   (add_trace [Sleep check_interval]
                      (add_trace [ListDevices "drm"] (set_scans (S (scans s)) s))))
        as (k & Hk & Hzero & Hpos & Hrun); [lia | lia |].
      exists (S k). split; [lia |]. split; [|split].
      * intros [|i] Hi; [rewrite Nat.add_0_r; lia |].
        specialize (Hzero i ltac:(lia)). simpl in Hzero.
        now replace (scans s + S i)%nat with (S (scans s + i)) by lia.
      * intros Hlt. specialize (Hpos ltac:(lia)). simpl in Hpos.
        now replace (scans s + S k)%nat with (S (scans s + k)) by lia.
      * rewrite Hrun. simpl scans.
        replace (S k <? S n)%nat with (k <? n)%nat by reflexivity.
        replace (S (scans s) + k)%nat with (scans s + S k)%nat by lia.
        replace (S j + k)%nat with (j + S k)%nat by lia.
        f_equal. unfold add_trace, set_scans; simpl.
        f_equal; [destruct (k <? n)%nat; lia |].
        now rewrite <- !app_assoc.
Qed.

Lemma wait_for_displays_ready_run (fuel : nat) (w : World) (s : State) :
  (20 <= fuel)%nat ->
  exists k,
    (k <= 20)%nat
    /\ (forall i, (i < k)%nat -> connected_count (drm w (scans s + i)) = 0%nat)
    /\ ((k < 20)%nat -> (0 < connected_count (drm w (scans s + k)))%nat)
    /\ wait_for_displays_ready fuel w s = (Ok true, after_wait w s k).
Proof.
  intros Hfuel.
  destruct (poll_displays_run 20 0 fuel w
              (add_trace [Log DEBUG MsgWaiting; Sleep 1.0%float; UdevContext] s))
    as (k & Hk & Hzero & Hpos & Hrun); [reflexivity | exact Hfuel |].
  exists k. repeat (split; [assumption |]).
  unfold wait_for_displays_ready, log, sleep, emit, modify.
  rewrite !bind_run. cbn beta iota.
  rewrite !add_trace_add_trace. cbn [app].
  change (0.0 + 1.0)%float with (waited_after 0). rewrite Hrun.
  unfold after_wait, wait_events, add_trace, set_scans. simpl.
  now rewrite <- !app_assoc.
Qed.



(** C3. [_wait_for_displays_ready] terminates and returns [True] in
    every world: given room for twenty rounds it first sleeps 1.0 s, then
    scans every 0.2 s; it stops at the first scan that sees a connected
    display, or after twenty fruitless scans, when [waited] has reached
    5.0 s. It raises nothing, and [execute_with_wait] goes on to
    [_execute_command] in either case. *)
Theorem wait_for_displays_ready_returns (fuel : nat) (w : World) (s : State) :
  (20 <= fuel)%nat ->
  exists k,
    (k <= 20)%nat
    /\ (forall i, (i < k)%nat -> connected_count (drm w (scans s + i)) = 0%nat)
    /\ ((k < 20)%nat -> (0 < connected_count (drm w (scans s + k)))%nat)
    /\ (max_wait <=? waited_after 20)%float = true
    /\ wait_for_displays_ready fuel w s = (Ok true, after_wait w s k)
    /\ execute_with_wait fuel w s = execute_command w (after_wait w s k)
    /\ eval (execute_with_wait fuel) w s = Ok tt.
Proof.
  intros Hfuel.
  destruct (wait_for_displays_ready_run fuel w s Hfuel)
    as (k & Hk & Hzero & Hpos & Hrun).
  exists k. repeat (split; [assumption || (vm_compute; reflexivity) |]).
  assert (execute_with_wait fuel w s = execute_command w (after_wait w s k)) as H.
  { unfold execute_with_wait. now rewrite bind_run, Hrun. }
  split; [exact H |].
  unfold eval. now rewrite H, execute_command_run.
Qed.

Lemma wait_for_displays_ready_returns_witness :
  (20 <= 20)%nat
  /\ exists k,
    (k <= 20)%nat
    /\ (forall i, (i < k)%nat ->
          connected_count (drm (bare_world RunTimeout) (scans init_state + i)) = 0%nat)
    /\ ((k < 20)%nat ->
          (0 < connected_count (drm (bare_world RunTimeout) (scans init_state + k)))%nat)
    /\ (max_wait <=? waited_after 20)%float = true
    /\ wait_for_displays_ready 20 (bare_world RunTimeout) init_state
       = (Ok true, after_wait (bare_world RunTimeout) init_state k)
    /\ execute_with_wait 20 (bare_world RunTimeout) init_state
       = execute_command (bare_world RunTimeout)
           (after_wait (bare_world RunTimeout) init_state k)
    /\ eval (execute_with_wait 20) (bare_world RunTimeout) init_state = Ok tt.
Proof.
  split; [lia |].
  apply (wait_for_displays_ready_returns 20 (bare_world RunTimeout) init_state).
  lia.
Defined.

End Readiness.

(* ================================================================== *)
(** ** The expiry path and the start-up check under an excluded desktop *)
(* ================================================================== *)

Section Excluded.
Import PyStr.


Lemma exclusion_logs_quiet (w : World) :
  List.filter is_probe (exclusion_logs w) = []
  /\ List.filter opens_event_source (exclusion_logs w) = []
  /\ length (List.filter is_detection (exclusion_logs w)) = 1%nat.
Proof.
  unfold exclusion_logs.
  destruct (detect (environ w) desktop_variables) as [[var d]|]; simpl;
    [|now repeat split].
  now destruct (excluded_in w).
Qed.




(** C9. When the policy says "excluded" at start-up, [monitor] returns
    0, and what it has done is one evaluation of the policy followed by
    one log record: no udev context, no netlink monitor, no filter, no
    timer; the same holds for [main]. *)
Theorem excluded_startup_exits_cleanly
        (w : World) (inputs : list (time * PollResult)) (s : State) :
  eval is_desktop_excluded w s = Ok true ->
  monitor inputs w s
  = (Ok (Some 0),
     add_trace [Log INFO MsgExcludedExiting] (exec is_desktop_excluded w s))
  /\ trace (exec (monitor inputs) w s)
     = trace s ++ exclusion_logs w ++ [Log INFO MsgExcludedExiting]
  /\ List.filter opens_event_source
       (exclusion_logs w ++ [Log INFO MsgExcludedExiting]) = []
  /\ length (List.filter is_detection
               (exclusion_logs w ++ [Log INFO MsgExcludedExiting])) = 1%nat
  /\ timers (exec (monitor inputs) w s) = timers s
  /\ eval (monitor inputs) w init_state = fst (main w inputs)
  /\ fst (main w inputs) = Ok (Some 0).
Proof.
  rewrite eval_is_desktop_excluded. intros [= Hex].
  assert (forall s0, monitor inputs w s0
          = (Ok (Some 0),
             add_trace [Log INFO MsgExcludedExiting]
                       (exec is_desktop_excluded w s0))) as H.
  { intros s0. unfold monitor, exec.
    rewrite bind_run, is_desktop_excluded_run, Hex. reflexivity. }
  destruct (exclusion_logs_quiet w) as (_ & Hopen & Hdet).
  split; [apply H |]. unfold exec, eval, main. rewrite !H.
  unfold exec. rewrite !is_desktop_excluded_run. simpl.
  split; [now rewrite <- app_assoc |].
  split; [now rewrite List.filter_app, Hopen |].
  split; [now rewrite List.filter_app, length_app, Hdet |].
  repeat split.
Qed.

Lemma excluded_startup_exits_cleanly_witness :
  eval is_desktop_excluded (desktop_world "KDE" "kde") init_state = Ok true
  /\ fst (main (desktop_world "KDE" "kde")
               [(0, Received (hotplug "change" "card0"))]) = Ok (Some 0).
Proof.
  split; [reflexivity |].
  apply (excluded_startup_exits_cleanly (desktop_world "KDE" "kde")
           [(0, Received (hotplug "change" "card0"))] init_state).
  reflexivity.
Defined.

End Excluded.

(* ================================================================== *)
(** ** The debounce coordinator *)
(* ================================================================== *)

Section Coordinator.

Lemma cancel_debounce_timer_run (w : World) (s : State) :
  cancel_debounce_timer w s = (Ok tt, cancelled s).
Proof.
  unfold cancel_debounce_timer, cancelled, timer_cancel. run.
  destruct (debounce_timer s); reflexivity.
Qed.

Lemma alter_last {A} (f : A -> A) (l : list A) (x : A) :
  alter f (length l) (l ++ [x]) = l ++ [f x].
Proof.
  replace (length l) with (length l + 0)%nat by lia.
  now rewrite alter_app_r.
Qed.

Lemma arm_debounce_timer_ok (w : World) (s : State) (d : time) :
  float_ms w (debounce_delay (config w)) = Some d ->
  arm_debounce_timer w s = (Ok tt, rearmed d s).
Proof.
  intros Hd. unfold arm_debounce_timer, py_float, timer_new, timer_start, rearmed.
  run. rewrite Hd. simpl.
  rewrite alter_last, list_lookup_middle by reflexivity. reflexivity.
Qed.

Lemma arm_debounce_timer_fail (w : World) (s : State) :
  float_ms w (debounce_delay (config w)) = None ->
  arm_debounce_timer w s = (Raise (Exception "ValueError"), s).
Proof.
  intros Hd. unfold arm_debounce_timer, py_float. run. now rewrite Hd.
Qed.

Lemma debounced_execute_run (w : World) (s : State) :
  debounced_execute w s = arm_debounce_timer w (cancelled s).
Proof.
  unfold debounced_execute. now rewrite bind_run, cancel_debounce_timer_run.
Qed.








Lemma filter_pending_quiet (ts : list Timer) :
  Forall (fun tm => pending tm = false) ts -> List.filter pending ts = [].
Proof.
  induction 1 as [|tm ts Htm _ IH]; [reflexivity |]. simpl. now rewrite Htm.
Qed.

Lemma armed_pending_count (d t0 : time) (s : State) :
  armed d t0 s -> pending_count s = 1%nat.
Proof.
  intros (old & Hts & Hold & _). unfold pending_count.
  now rewrite Hts, List.filter_app, filter_pending_quiet.
Qed.


Lemma firings_app (a b : list Event) : firings (a ++ b) = firings a ++ firings b.
Proof.
  induction a as [|e a IH]; [reflexivity |].
  destruct e; simpl; now rewrite ?IH.
Qed.

Lemma due_pending (now : time) (tm : Timer) : due now tm = true -> pending tm = true.
Proof.
  unfold due, pending. destruct (started tm); [|discriminate].
  now intros [H _]%andb_true_iff.
Qed.

(** Nothing fires among timers none of which is due. *)
Lemma fire_due_none (from now : time) (ts : list Timer) :
  forall id, Forall (fun tm => due now tm = false) ts ->
             fire_due from now id ts = (ts, []).
Proof.
  induction ts as [|tm ts IH]; intros id Hts; [reflexivity |].
  apply Forall_cons in Hts as [Htm Hts].
  simpl. now rewrite (IH _ Hts), Htm.
Qed.

Lemma fire_due_app (from now : time) (a b : list Timer) :
  forall id,
    fire_due from now id (a ++ b) =
    (fst (fire_due from now id a) ++ fst (fire_due from now (id + length a) b),
     snd (fire_due from now id a) ++ snd (fire_due from now (id + length a) b)).
Proof.
  induction a as [|tm a IH]; intros id; simpl.
  - rewrite Nat.add_0_r. now destruct (fire_due from now id b).
  - rewrite IH. replace (S id + length a)%nat with (id + S (length a))%nat by lia.
    destruct (fire_due from now (S id) a) as [a' fa].
    destruct (fire_due from now (id + S (length a)) b) as [b' fb].
    now destruct (due now tm).
Qed.


Lemma fire_due_no_due (from now : time) (ts : list Timer) :
  forall id, Forall (fun tm => due now tm = false) (fst (fire_due from now id ts)).
Proof.
  induction ts as [|tm ts IH]; intros id; simpl; [constructor |].
  specialize (IH (S id)). destruct (fire_due from now (S id) ts) as [ts' fired].
  destruct (due now tm) eqn:E; simpl; constructor; try exact IH; try exact E.
  unfold due, set_finished. simpl. now destruct (started tm).
Qed.

Lemma elapse_run (t : time) (w : World) (s : State) :
  elapse t w s =
  (Ok tt,
   set_clock (Z.max (clock s) t)
     (add_trace (snd (fire_due (clock s) t 0 (timers s)))
        (set_timers (fst (fire_due (clock s) t 0 (timers s))) s))).
Proof.
  unfold elapse. run. now destruct (fire_due (clock s) t 0 (timers s)).
Qed.

(** Time passing while no timer comes due only moves the clock. *)
Lemma elapse_idle (t : time) (w : World) (s : State) :
  Forall (fun tm => due t tm = false) (timers s) ->
  clock s <= t ->
  elapse t w s = (Ok tt, set_clock t s).
Proof.
  intros Hts Ht. rewrite elapse_run, fire_due_none by exact Hts. simpl.
  rewrite Z.max_r by lia. destruct s. unfold set_clock, add_trace, set_timers.
  simpl. now rewrite app_nil_r.
Qed.


Lemma poll_displays_frame (fuel : nat) :
  forall waited w s,
    timers (exec (poll_displays fuel waited) w s) = timers s
    /\ debounce_timer (exec (poll_displays fuel waited) w s) = debounce_timer s.
Proof.
  unfold exec. induction fuel as [|fuel IH]; intros waited w s;
    rewrite poll_displays_eq; destruct (waited <? max_wait)%float;
    try (now split).
  rewrite bind_run, probe_run. cbn beta iota.
  destruct (0 <? connected_count (drm w (scans s)))%nat; [now split |].
  unfold sleep, emit, modify. rewrite bind_run. cbn beta iota.
  destruct (IH (waited + check_interval)%float w
               (add_trace [Sleep check_interval]
                  (add_trace [ListDevices "drm"] (set_scans (S (scans s)) s))))
    as [-> ->].
  now split.
Qed.

(** What a timer thread runs leaves the timers alone. *)
Lemma execute_with_wait_frame (fuel : nat) (w : World) (s : State) :
  timers (exec (execute_with_wait fuel) w s) = timers s
  /\ debounce_timer (exec (execute_with_wait fuel) w s) = debounce_timer s.
Proof.
  pose proof (poll_displays_frame fuel (0.0 + 1.0)%float w
                (add_trace [Log DEBUG MsgWaiting; Sleep 1.0%float; UdevContext] s))
    as [Ht Hd].
  unfold exec, execute_with_wait in *. rewrite bind_run.
  assert (wait_for_displays_ready fuel w s
          = poll_displays fuel (0.0 + 1.0)%float w
              (add_trace [Log DEBUG MsgWaiting; Sleep 1.0%float; UdevContext] s)) as ->.
  { unfold wait_for_displays_ready, log, sleep, emit, modify.
    rewrite !bind_run. cbn beta iota. now rewrite !add_trace_add_trace. }
  destruct (poll_displays fuel (0.0 + 1.0)%float w
              (add_trace [Log DEBUG MsgWaiting; Sleep 1.0%float; UdevContext] s))
    as [[b|e|] s1]; simpl in *; try (now split).
  rewrite execute_command_run. simpl.
  destruct (after_execute_frame w s1) as (_ & -> & -> & _). now split.
Qed.


Lemma handle_device_event_run (device : Device) (w : World) (s : State) :
  handle_device_event device w s =
  if action_handled device && display_device device
  then debounced_execute w
         (add_trace [Log DEBUG (MsgDeviceEvent (action device) (sys_name device))] s)
  else (Ok tt, s).
Proof.
  unfold handle_device_event.
  destruct (action_handled device); [|reflexivity].
  destruct (display_device device); reflexivity.
Qed.

(** The two tests of the source say what [display_event] says. *)
Lemma display_event_spec (device : Device) :
  action_handled device && display_device device = true <-> display_event device.
Proof.
  unfold action_handled, display_device, display_event.
  rewrite andb_true_iff, orb_true_iff, !bool_decide_eq_true, contains_spec.
  rewrite !elem_of_cons, elem_of_nil. tauto.
Qed.





Lemma cancelled_trace (s : State) :
  exists evs, trace (cancelled s) = trace s ++ evs.
Proof.
  unfold cancelled. destruct (debounce_timer s); simpl.
  - now exists [TimerCancel n].
  - exists []. now rewrite app_nil_r.
Qed.

(** [_debounced_execute] never shortens the trace. *)
Lemma debounced_execute_trace (w : World) (s : State) :
  exists evs, trace (exec debounced_execute w s) = trace s ++ evs.
Proof.
  unfold exec. rewrite debounced_execute_run.
  destruct (cancelled_trace s) as [evs Hevs].
  destruct (float_ms w (debounce_delay (config w))) as [d|] eqn:Hd.
  - rewrite (arm_debounce_timer_ok _ _ d Hd). simpl. rewrite Hevs.
    eexists. now rewrite <- app_assoc.
  - rewrite (arm_debounce_timer_fail _ _ Hd). simpl. now exists evs.
Qed.

(** C7. [_handle_device_event] forwards an event to
    [_debounced_execute] exactly when its action is add, change or
    remove and its device has "card" in its name or is of type
    drm_minor; any other event leaves the whole state, the timers
    included, as it was. *)
Theorem handle_device_event_filters (device : Device) (w : World) (s : State) :
  (display_event device ->
   handle_device_event device w s
   = debounced_execute w
       (add_trace [Log DEBUG (MsgDeviceEvent (action device) (sys_name device))] s))
  /\ (~ display_event device -> handle_device_event device w s = (Ok tt, s))
  /\ (display_event device <-> exec (handle_device_event device) w s <> s)
  /\ (display_event device \/ ~ display_event device).
Proof.
  rewrite <- display_event_spec. unfold exec.
  rewrite handle_device_event_run.
  destruct (action_handled device && display_device device).
  - split; [reflexivity |]. split; [intros H; now contradiction H |].
    split; [|now left]. split; [|reflexivity]. intros _ Heq.
    destruct (debounced_execute_trace w
                (add_trace [Log DEBUG (MsgDeviceEvent (action device) (sys_name device))] s))
      as [evs Hevs].
    unfold exec in Hevs. rewrite Heq in Hevs. simpl in Hevs.
    apply (f_equal (@length Event)) in Hevs. rewrite !length_app in Hevs.
    simpl in Hevs. lia.
  - split; [discriminate |]. split; [reflexivity |].
    split; [|right; discriminate]. split; [discriminate |].
    intros H. now contradiction H.
Qed.


Lemma armed_not_due (d t0 t : time) (s : State) :
  armed d t0 s -> t < t0 + d ->
  Forall (fun tm => due t tm = false) (timers s).
Proof.
  intros (old & -> & Hold & _) Ht. apply Forall_app. split.
  - eapply Forall_impl; [exact Hold |]. intros tm Hp. simpl in Hp.
    destruct (due t tm) eqn:E; [|reflexivity].
    apply due_pending in E. congruence.
  - constructor; [|constructor]. unfold due. simpl. apply Z.leb_gt. lia.
Qed.







End Coordinator.

(* ================================================================== *)
(** ** Worked examples *)
(* ================================================================== *)

Section Examples.
Import PyStr.

Example split_commas :
  split "," "a,b,,c" = ["a"; "b"; ""; "c"]%string
  /\ split "," "" = [""]%string
  /\ split "," "," = [""; ""]%string.
Proof. repeat split. Qed.

Example strip_blanks :
  strip "  x y  " = "x y"%string /\ strip "   " = ""%string.
Proof. split; reflexivity. Qed.

Example lower_ascii : lower "GNOME-Shell@[`{" = "gnome-shell@[`{"%string.
Proof. reflexivity. Qed.

Example contains_either :
  contains "" "" = true /\ contains "abc" "" = false
  /\ contains "me-c" "gnome-classic" = true.
Proof. repeat split. Qed.

Example default_exclusions :
  excluded_list default_config
  = ["cosmic"; "gnome"; "kde"; "plasma"; "xfce"; "x-cinnamon"]%string.
Proof. reflexivity. Qed.

(** A fragment is matched after it is stripped: " kde" excludes
    "kde-plasma". *)
Example padded_fragment :
  eval is_desktop_excluded (desktop_world "kde-plasma" "GNOME, kde") init_state
  = Ok true.
Proof. reflexivity. Qed.

(** The command fails with status 1: one warning for the status, one
    for the error output, and the call returns. *)
Example failing_command :
  execute_command (bare_world (Completed 1 "" "xrandr: command not found")) init_state
  = (Ok tt,
     add_trace [Log DEBUG MsgNoDesktop; Log INFO (MsgExecuting "autorandr -c");
                Spawn "autorandr -c" 30; Log WARNING (MsgFailed 1);
                Log WARNING (MsgStderr "xrandr: command not found")]
               (set_spawns 1 init_state)).
Proof. reflexivity. Qed.

(** Nineteen rounds are not enough room when nothing is plugged in;
    twenty are. *)
Example twenty_rounds :
  eval (wait_for_displays_ready 19) (bare_world RunTimeout) init_state = OutOfFuel
  /\ eval (wait_for_displays_ready 20) (bare_world RunTimeout) init_state = Ok true
  /\ scans (exec (wait_for_displays_ready 20) (bare_world RunTimeout) init_state)
     = 20%nat.
Proof. repeat split; vm_compute; reflexivity. Qed.

(** Events that do not pass the filter. *)
Example unhandled_events :
  let bind_event := {| action := Some "bind"%string; sys_name := "card0";
                       device_type := Some "drm_minor"%string; attributes := ∅ |} in
  let other_device := {| action := Some "add"%string; sys_name := "renderD128";
                         device_type := None; attributes := ∅ |} in
  handle_device_event bind_event (bare_world RunTimeout) init_state
  = (Ok tt, init_state)
  /\ handle_device_event other_device (bare_world RunTimeout) init_state
     = (Ok tt, init_state).
Proof. split; reflexivity. Qed.

(** Two events further apart than the delay give two calls. *)
Example two_quiet_periods :
  firings (trace (exec (monitor_loop
                          (received [(0, hotplug "add" "card0");
                                     (500, hotplug "remove" "card0")]);;
                        elapse 1000)
                       (bare_world RunTimeout) init_state))
  = [100; 600].
Proof. vm_compute. reflexivity. Qed.

(** An interrupt cancels the pending timer and the exit status is 0. *)
Example interrupted :
  let r := monitor [(0, Received (hotplug "change" "card0")); (50, Interrupted)]
                   (bare_world RunTimeout) init_state in
  fst r = Ok (Some 0)
  /\ pending_count (snd r) = 0%nat
  /\ firings (trace (exec (elapse 1000) (bare_world RunTimeout) (snd r))) = [].
Proof. repeat split; vm_compute; reflexivity. Qed.

End Examples.

(* ================================================================== *)
(** ** Loading the configuration: which file is read *)
(* ================================================================== *)

Section Configuration.

Lemma read_first_missing (fs : Files) (before rest : list string) (cfg : Config) :
  Forall (fun l => files fs !! l = None) before ->
  read_first fs (before ++ rest) cfg = read_first fs rest cfg.
Proof.
  induction 1 as [|l before Hl _ IH]; [reflexivity |].
  simpl. now rewrite Hl.
Qed.

(** X1. When none of the candidate locations exists, [_load_config]
    gives the defaults; an empty [config_path] is no candidate at all,
    and a missing command-line argument gives no [config_path]. *)
Theorem load_config_defaults (fs : Files) (config_path : option string) :
  Forall (fun l => files fs !! l = None) (config_locations fs config_path) ->
  load_config fs config_path = Ok default_config
  /\ config_locations fs (Some ""%string) = config_locations fs None
  /\ (forall prog, load_config fs (config_path_of_argv [prog]) = load_config fs None).
Proof.
  intros Hmissing. split; [|split; [reflexivity | reflexivity]].
  unfold load_config.
  rewrite <- (app_nil_r (config_locations fs config_path)).
  now rewrite read_first_missing.
Qed.

Lemma load_config_defaults_witness :
  Forall (fun l => files (sample_files []) !! l = None)
         (config_locations (sample_files []) (Some "/tmp/missing.ini"%string))
  /\ load_config (sample_files []) (Some "/tmp/missing.ini"%string)
     = Ok default_config.
Proof.
  assert (Forall (fun l => files (sample_files []) !! l = None)
            (config_locations (sample_files []) (Some "/tmp/missing.ini"%string)))
    as H by (repeat constructor).
  split; [exact H |].
  exact (proj1 (load_config_defaults (sample_files [])
                  (Some "/tmp/missing.ini"%string) H)).
Defined.

(** X2. [_load_config] reads exactly one file, the first candidate that
    exists, in the order: the path given, the per-user file, the
    system-wide file. What the later candidates hold plays no part: an
    option the file read does not set keeps its default, a file that
    cannot be opened leaves the defaults, and a file that cannot be
    parsed makes the call raise. *)
Theorem load_config_reads_first_existing
        (fs : Files) (config_path : option string)
        (before after : list string) (location : string) (file : ConfigFile) :
  config_locations fs config_path = before ++ location :: after ->
  Forall (fun l => files fs !! l = None) before ->
  files fs !! location = Some file ->
  load_config fs config_path =
  match file with
  | Options opts => Ok (config_read default_config opts)
  | Unreadable => Ok default_config
  | Malformed what => Raise (Exception what)
  end.
Proof.
  intros Hloc Hbefore Hfile. unfold load_config.
  rewrite Hloc, read_first_missing by exact Hbefore.
  simpl. rewrite Hfile. now destruct file.
Qed.

Lemma load_config_reads_first_existing_witness :
  let fs := sample_files
              [("/home/u/.config/screenwatch/config.ini"%string,
                Options {[ "command"%string := "xrandr --auto"%string ]});
               ("/etc/screenwatch/config.ini"%string,
                Options {[ "debounce_delay"%string := "5"%string ]})] in
  config_locations fs (Some "/tmp/missing.ini"%string)
  = ["/tmp/missing.ini"%string]
    ++ "/home/u/.config/screenwatch/config.ini"%string
    :: ["/etc/screenwatch/config.ini"%string]
  /\ load_config fs (Some "/tmp/missing.ini"%string)
     = Ok {| command := "xrandr --auto";
             excluded_desktops := "COSMIC,GNOME,KDE,Plasma,XFCE,X-Cinnamon";
             debounce_delay := "2.0"; log_level := "INFO" |}.
Proof.
  intros fs. split; [reflexivity |].
  exact (load_config_reads_first_existing fs (Some "/tmp/missing.ini"%string)
           ["/tmp/missing.ini"%string] ["/etc/screenwatch/config.ini"%string]
           "/home/u/.config/screenwatch/config.ini"%string
           (Options {[ "command"%string := "xrandr --auto"%string ]})
           eq_refl ltac:(repeat constructor) eq_refl).
Defined.

End Configuration.

(* ================================================================== *)
(** ** Detecting the desktop: precedence, blanks and letter case *)
(* ================================================================== *)

Section Desktop.
Import PyStr.


Lemma rstrip_cons (c : ascii) (s : string) :
  rstrip (String c s) =
  match rstrip s with
  | EmptyString => if isspace c then EmptyString else String c EmptyString
  | r => String c r
  end.
Proof. reflexivity. Qed.







Ltac each_character c :=
  destruct c as [[] [] [] [] [] [] [] []]; vm_compute; reflexivity.

Lemma lower_char_idempotent (c : ascii) : lower_char (lower_char c) = lower_char c.
Proof. each_character c. Qed.

Lemma isspace_lower_char (c : ascii) : isspace (lower_char c) = isspace c.
Proof. each_character c. Qed.

Lemma comma_lower_char (c : ascii) :
  Ascii.eqb (lower_char c) "," = Ascii.eqb c ",".
Proof. each_character c. Qed.

Lemma lower_idempotent (s : string) : lower (lower s) = lower s.
Proof.
  induction s as [|c s IH]; [reflexivity |].
  simpl. now rewrite lower_char_idempotent, IH.
Qed.

Lemma lstrip_lower (s : string) : lstrip (lower s) = lower (lstrip s).
Proof.
  induction s as [|c s IH]; [reflexivity |].
  simpl. rewrite isspace_lower_char. now destruct (isspace c).
Qed.

Lemma rstrip_lower (s : string) : rstrip (lower s) = lower (rstrip s).
Proof.
  induction s as [|c s IH]; [reflexivity |].
  cbn [lower]. rewrite !rstrip_cons, IH, isspace_lower_char.
  destruct (rstrip s); [now destruct (isspace c) | reflexivity].
Qed.

(** Stripping and lower-casing commute. *)
Lemma strip_lower (s : string) : strip (lower s) = lower (strip s).
Proof. unfold strip. now rewrite lstrip_lower, rstrip_lower. Qed.

(** Splitting at commas and lower-casing commute. *)
Lemma split_lower (s : string) :
  split "," (lower s) = List.map lower (split "," s).
Proof.
  induction s as [|c s IH]; [reflexivity |].
  cbn [lower split]. rewrite comma_lower_char, IH.
  destruct (Ascii.eqb c ","); [reflexivity |].
  now destruct (split "," s).
Qed.

(** The matched list depends on the configured value only up to case. *)
Lemma excluded_list_of_lower (cfg cfg' : Config) :
  excluded_desktops cfg' = lower (excluded_desktops cfg) ->
  excluded_list cfg' = excluded_list cfg.
Proof.
  unfold excluded_list. intros ->. rewrite split_lower.
  induction (split "," (excluded_desktops cfg)) as [|p ps IH]; [reflexivity |].
  simpl. rewrite strip_lower, lower_nonempty.
  destruct (nonempty (strip p)); simpl; [|exact IH].
  now rewrite strip_lower, lower_idempotent, IH.
Qed.

Lemma detect_case (env env' : gmap string string) (vars : list string) :
  (forall var, lower <$> (env !! var) = lower <$> (env' !! var)) ->
  match detect env vars, detect env' vars with
  | Some (v, d), Some (v', d') => v = v' /\ lower d = lower d'
  | None, None => True
  | _, _ => False
  end.
Proof.
  intros Henv. induction vars as [|var rest IH]; simpl; [exact I |].
  assert (lower (strip (default ""%string (env !! var)))
          = lower (strip (default ""%string (env' !! var)))) as Hlow.
  { specialize (Henv var). rewrite <- !strip_lower.
    destruct (env !! var), (env' !! var); simpl in *; congruence. }
  pose proof (f_equal nonempty Hlow) as Hne. rewrite !lower_nonempty in Hne.
  rewrite <- Hne.
  destruct (nonempty (strip (default ""%string (env !! var)))); [now split | exact IH].
Qed.

(** X5. The verdict of the exclusion policy does not depend on letter
    case: two sessions whose desktop variables and whose configured
    exclusion value are equal once lower-cased get the same answer. *)
Theorem exclusion_ignores_case (w w' : World) (s s' : State) :
  (forall var, lower <$> (environ w !! var) = lower <$> (environ w' !! var)) ->
  lower (excluded_desktops (config w)) = lower (excluded_desktops (config w')) ->
  eval is_desktop_excluded w s = eval is_desktop_excluded w' s'.
Proof.
  intros Henv Hcfg. rewrite !eval_is_desktop_excluded. f_equal.
  unfold excluded_in.
  pose proof (detect_case (environ w) (environ w') desktop_variables Henv) as Hd.
  assert (excluded_list (config w) = excluded_list (config w')) as Hlist.
  { pose (c := {| command := ""; excluded_desktops := lower (excluded_desktops (config w));
                  debounce_delay := ""; log_level := "" |}).
    rewrite <- (excluded_list_of_lower (config w) c eq_refl).
    apply excluded_list_of_lower. simpl. congruence. }
  destruct (detect (environ w) desktop_variables) as [[v d]|],
           (detect (environ w') desktop_variables) as [[v' d']|];
    try contradiction; [|reflexivity].
  destruct Hd as [_ ->]. now rewrite Hlist.
Qed.

Lemma exclusion_ignores_case_witness :
  (forall var,
      lower <$> (environ (desktop_world "Gnome-Classic" "gnome, Kde") !! var)
      = lower <$> (environ (desktop_world "GNOME-CLASSIC" "GNOME, kDE") !! var))
  /\ lower (excluded_desktops (config (desktop_world "Gnome-Classic" "gnome, Kde")))
     = lower (excluded_desktops (config (desktop_world "GNOME-CLASSIC" "GNOME, kDE")))
  /\ eval is_desktop_excluded (desktop_world "Gnome-Classic" "gnome, Kde") init_state
     = eval is_desktop_excluded (desktop_world "GNOME-CLASSIC" "GNOME, kDE") init_state.
Proof.
  assert (forall var,
             lower <$> (environ (desktop_world "Gnome-Classic" "gnome, Kde") !! var)
             = lower <$> (environ (desktop_world "GNOME-CLASSIC" "GNOME, kDE") !! var))
    as Henv.
  { intros var. simpl.
    destruct (decide (var = "XDG_CURRENT_DESKTOP"%string)) as [->|Hne].
    - now rewrite !lookup_singleton_eq.
    - now rewrite !lookup_singleton_ne by congruence. }
  split; [exact Henv |]. split; [reflexivity |].
  exact (exclusion_ignores_case _ _ init_state init_state Henv eq_refl).
Defined.

End Desktop.

(* ================================================================== *)
(** ** The debounce schedule for events at any spacing *)
(* ================================================================== *)

Section Schedule.

Lemma set_clock_same (s : State) (t : time) : t = clock s -> set_clock t s = s.
Proof. intros ->. now destruct s. Qed.

(** The newest timer is the only one pending and its wake-up time has
    not passed: when time moves on to [T] it fires at that time. *)
Lemma pending_fires (w : World) (d t0 T : time) (old : list Timer) (s : State) :
  timers s = old ++ [{| interval := d; started := Some t0; finished := false |}] ->
  Forall (fun tm => pending tm = false) old ->
  clock s <= t0 + d -> t0 + d <= T ->
  firings (trace (exec (elapse T) w s)) = firings (trace s) ++ [t0 + d]
  /\ quiet (exec (elapse T) w s)
  /\ clock (exec (elapse T) w s) = T
  /\ debounce_timer (exec (elapse T) w s) = debounce_timer s.
Proof.
  intros Hts Hold Hclock HT.
  assert (fire_due (clock s) T 0 (timers s)
          = (old ++ [{| interval := d; started := Some t0; finished := true |}],
             [TimerFired (length old) (t0 + d)])) as Hfire.
  { rewrite Hts, fire_due_app, fire_due_none.
    - simpl. unfold due. simpl.
      replace (t0 + d <=? T) with true by (symmetry; apply Z.leb_le; lia).
      simpl. unfold wake_time. simpl. now rewrite Z.max_r by lia.
    - eapply Forall_impl; [exact Hold |]. intros tm Hp. simpl in Hp.
      destruct (due T tm) eqn:E; [|reflexivity].
      apply due_pending in E. congruence. }
  unfold exec. rewrite elapse_run, Hfire. simpl.
  split; [now rewrite firings_app |]. split; [|split; [lia | reflexivity]].
  unfold quiet. simpl. apply Forall_app. split; [exact Hold |].
  now repeat constructor.
Qed.











End Schedule.

(* ================================================================== *)
(** ** How the monitor loop ends *)
(* ================================================================== *)

Section LoopExit.

(** [monitor] past the start-up check, by the way its loop ends. *)
Lemma monitor_outcome (w : World) (inputs : list (time * PollResult)) (s : State) :
  excluded_in w = false ->
  monitor inputs w s =
  match monitor_loop inputs w (monitoring w s) with
  | (Raise KeyboardInterrupt, s') =>
      (Ok (Some 0), cancelled (add_trace [Log INFO MsgInterrupt] s'))
  | (Raise TimeoutExpired, s') =>
      (Ok (Some 1), add_trace [Log ERROR (MsgLoopError "TimeoutExpired")] s')
  | (Raise (Exception what), s') =>
      (Ok (Some 1), add_trace [Log ERROR (MsgLoopError what)] s')
  | r => r
  end.
Proof.
  intros Hex. unfold monitor. rewrite bind_run, is_desktop_excluded_run, Hex.
  unfold log, emit, modify. rewrite !bind_run. cbn beta iota.
  unfold ask. cbn beta iota. rewrite !bind_run. cbn beta iota.
  rewrite !add_trace_add_trace. unfold try_except, monitoring.
  cbn [app].
  destruct (monitor_loop inputs w _) as [[o|[| |what]|] s']; try reflexivity.
  rewrite bind_run. cbn beta iota. rewrite bind_run, cancel_debounce_timer_run.
  reflexivity.
Qed.

(** An event that does not pass the filter, arriving while a timer is
    pending and not yet due, changes nothing but the clock. *)
Lemma ignored_step (w : World) (d t0 t : time) (device : Device) (s : State) :
  armed d t0 s -> ~ display_event device -> t0 <= t < t0 + d ->
  (elapse t;; handle_device_event device) w s = (Ok tt, set_clock t s).
Proof.
  intros Harm Hev [Hle Hlt].
  rewrite bind_run, elapse_idle.
  - cbn beta iota. rewrite handle_device_event_run.
    destruct (action_handled device && display_device device) eqn:E;
      [|reflexivity].
    apply display_event_spec in E. contradiction.
  - exact (armed_not_due _ _ _ _ Harm Hlt).
  - destruct Harm as (old & _ & _ & _ & ->). exact Hle.
Qed.

(** X8. An event that does not pass the filter does not postpone a
    pending execution: arriving during the quiet period it leaves the
    timer pending, and the timer fires the delay after the display event
    that armed it. *)
Theorem ignored_event_does_not_postpone
        (w : World) (d t0 t T : time) (device : Device) (s : State) :
  armed d t0 s ->
  ~ display_event device ->
  t0 <= t < t0 + d ->
  t0 + d <= T ->
  (elapse t;; handle_device_event device) w s = (Ok tt, set_clock t s)
  /\ pending_count (set_clock t s) = 1%nat
  /\ firings (trace (exec (elapse t;; handle_device_event device;; elapse T) w s))
     = firings (trace s) ++ [t0 + d].
Proof.
  intros Harm Hev Ht HT.
  pose proof (ignored_step w d t0 t device s Harm Hev Ht) as Hstep.
  split; [exact Hstep |].
  split; [exact (armed_pending_count _ _ _ Harm) |].
  destruct Harm as (old & Hts & Hold & _ & Hclock).
  destruct (pending_fires w d t0 T old (set_clock t s) Hts Hold
              ltac:(simpl; lia) HT) as (Hf & _).
  unfold exec in *. rewrite bind_run in Hstep. rewrite bind_run.
  destruct (elapse t w s) as [[[]|e|] s0]; try discriminate.
  rewrite bind_run, Hstep. exact Hf.
Qed.

Lemma ignored_event_does_not_postpone_witness :
  let w := bare_world RunTimeout in
  let s := exec (handle_device_event (hotplug "change" "card0")) w init_state in
  let other := {| action := Some "bind"%string; sys_name := "card0";
                  device_type := Some "drm_minor"%string; attributes := ∅ |} in
  armed 100 0 s
  /\ ~ display_event other
  /\ 0 <= 60 < 0 + 100
  /\ firings (trace (exec (elapse 60;; handle_device_event other;; elapse 500) w s))
     = [100].
Proof.
  intros w s other.
  assert (armed 100 0 s) as Harm by (exists []; now repeat split).
  assert (~ display_event other) as Hev.
  { intros [[H|[H|H]] _]; discriminate. }
  split; [exact Harm |]. split; [exact Hev |]. split; [lia |].
  exact (proj2 (proj2 (ignored_event_does_not_postpone w 100 0 60 500 other s
                         Harm Hev ltac:(lia) ltac:(lia)))).
Defined.














End LoopExit.

(* ================================================================== *)
(** ** What each thread leaves to the other *)
(* ================================================================== *)

Section Threads.

Lemma fire_due_not_blocking (from now : time) (ts : list Timer) :
  forall id, List.filter blocking (snd (fire_due from now id ts)) = [].
Proof.
  induction ts as [|tm ts IH]; intros id; [reflexivity |].
  simpl. specialize (IH (S id)).
  destruct (fire_due from now (S id) ts) as [ts' fired].
  now destruct (due now tm).
Qed.

Lemma exclusion_logs_not_blocking (w : World) :
  List.filter blocking (exclusion_logs w) = [].
Proof.
  unfold exclusion_logs.
  destruct (detect (environ w) desktop_variables) as [[var d]|]; [|reflexivity].
  now destruct (excluded_in w).
Qed.

Lemma cancelled_not_blocking (s : State) :
  List.filter blocking (trace (cancelled s)) = List.filter blocking (trace s).
Proof.
  unfold cancelled. destruct (debounce_timer s); [|reflexivity].
  simpl. rewrite List.filter_app. simpl. now rewrite app_nil_r.
Qed.

Lemma elapse_not_blocking (t : time) (w : World) (s : State) :
  List.filter blocking (trace (exec (elapse t) w s))
  = List.filter blocking (trace s).
Proof.
  unfold exec. rewrite elapse_run. simpl.
  now rewrite List.filter_app, fire_due_not_blocking, app_nil_r.
Qed.

Lemma handle_not_blocking (device : Device) (w : World) (s : State) :
  List.filter blocking (trace (exec (handle_device_event device) w s))
  = List.filter blocking (trace s).
Proof.
  unfold exec. rewrite handle_device_event_run.
  destruct (action_handled device && display_device device); [|reflexivity].
  rewrite debounced_execute_run.
  destruct (float_ms w (debounce_delay (config w))) as [d|] eqn:Hd.
  - rewrite (arm_debounce_timer_ok _ _ d Hd). simpl.
    rewrite List.filter_app, cancelled_not_blocking. simpl.
    rewrite List.filter_app. simpl. now rewrite !app_nil_r.
  - rewrite (arm_debounce_timer_fail _ _ Hd). simpl.
    rewrite cancelled_not_blocking. simpl.
    rewrite List.filter_app. simpl. now rewrite app_nil_r.
Qed.

Lemma monitor_loop_not_blocking (w : World) (inputs : list (time * PollResult)) :
  forall s,
    List.filter blocking (trace (exec (monitor_loop inputs) w s))
    = List.filter blocking (trace s).
Proof.
  induction inputs as [|[t [device| |what]] inputs IH]; intros s.
  - reflexivity.
  - pose proof (elapse_not_blocking t w s) as He.
    pose proof (handle_not_blocking device w (exec (elapse t) w s)) as Hh.
    unfold exec in *. cbn [monitor_loop]. rewrite bind_run.
    rewrite elapse_run in *. cbn beta iota. cbn [snd] in Hh, He.
    rewrite bind_run.
    destruct (handle_device_event device w _) as [[[]|e|] s2]; cbn [snd] in *.
    + now rewrite IH, Hh.
    + now rewrite Hh.
    + now rewrite Hh.
  - pose proof (elapse_not_blocking t w s) as He.
    unfold exec in *. cbn [monitor_loop]. rewrite bind_run.
    rewrite elapse_run in *. exact He.
  - pose proof (elapse_not_blocking t w s) as He.
    unfold exec in *. cbn [monitor_loop]. rewrite bind_run.
    rewrite elapse_run in *. exact He.
Qed.

(** X12. The two threads keep apart. Whatever [poll] gives and however
    [monitor] ends, the main thread never sleeps, never scans the
    devices and never runs the command; and what a timer thread runs
    never touches the timers or [debounce_timer]. *)
Theorem threads_keep_apart
        (w : World) (inputs : list (time * PollResult)) (fuel : nat) (s : State) :
  List.filter blocking (trace (exec (monitor inputs) w s))
  = List.filter blocking (trace s)
  /\ timers (exec (execute_with_wait fuel) w s) = timers s
  /\ debounce_timer (exec (execute_with_wait fuel) w s) = debounce_timer s.
Proof.
  split; [|exact (execute_with_wait_frame fuel w s)].
  destruct (excluded_in w) eqn:Hex.
  - unfold exec, monitor. rewrite bind_run, is_desktop_excluded_run, Hex. simpl.
    rewrite !List.filter_app, exclusion_logs_not_blocking. simpl.
    now rewrite !app_nil_r.
  - pose proof (monitor_loop_not_blocking w inputs (monitoring w s)) as Hloop.
    assert (List.filter blocking (trace (monitoring w s))
            = List.filter blocking (trace s)) as Hstart.
    { unfold monitoring. simpl.
      rewrite !List.filter_app, exclusion_logs_not_blocking. simpl.
      now rewrite app_nil_r. }
    unfold exec in *. rewrite (monitor_outcome _ _ _ Hex).
    destruct (monitor_loop inputs w (monitoring w s)) as [[o|[| |what]|] s'];
      cbn [snd] in *; rewrite <- Hstart, <- Hloop; try reflexivity.
    + simpl. rewrite List.filter_app. simpl. now rewrite app_nil_r.
    + rewrite cancelled_not_blocking. simpl.
      rewrite List.filter_app. simpl. now rewrite app_nil_r.
    + simpl. rewrite List.filter_app. simpl. now rewrite app_nil_r.
Qed.

End Threads.

(* ================================================================== *)
(** ** The exclusion list piece by piece, and what is logged of the output *)
(* ================================================================== *)

Section Pieces.
Import PyStr.
#[local] Arguments String.append !_ _ / : simpl nomatch.

(** Splitting a value with a comma in the middle splits both halves. *)
Lemma split_comma (x y : string) :
  split "," (x +:+ String "," y) = split "," x ++ split "," y.
Proof.
  induction x as [|c x IH]; [reflexivity |].
  cbn [String.append split]. rewrite IH.
  destruct (Ascii.eqb c ","); [reflexivity |].
  pose proof (split_not_nil "," x) as Hnil.
  now destruct (split "," x).
Qed.

Lemma excluded_list_comma (w : World) (x y : string) :
  excluded_list (config (with_excluded w (x +:+ String "," y)))
  = excluded_list (config (with_excluded w x))
    ++ excluded_list (config (with_excluded w y)).
Proof.
  unfold excluded_list. cbn [with_excluded config excluded_desktops].
  now rewrite split_comma, List.filter_app, List.map_app.
Qed.

(** X13. Joining two exclusion values with a comma joins their lists,
    in order, so a desktop is excluded under the joined value exactly
    when it is excluded under one of the two: adding entries never lets
    through a desktop that was excluded. *)
Theorem exclusion_values_add_up (w : World) (x y : string) (s : State) :
  excluded_list (config (with_excluded w (x +:+ String "," y)))
  = excluded_list (config (with_excluded w x))
    ++ excluded_list (config (with_excluded w y))
  /\ (eval is_desktop_excluded (with_excluded w (x +:+ String "," y)) s = Ok true
      <-> eval is_desktop_excluded (with_excluded w x) s = Ok true
          \/ eval is_desktop_excluded (with_excluded w y) s = Ok true).
Proof.
  split; [apply excluded_list_comma |].
  rewrite !eval_is_desktop_excluded. unfold excluded_in.
  rewrite excluded_list_comma.
  change (environ (with_excluded w (x +:+ String "," y))) with (environ w).
  change (environ (with_excluded w x)) with (environ w).
  change (environ (with_excluded w y)) with (environ w).
  destruct (detect (environ w) desktop_variables) as [[var d]|].
  - rewrite existsb_app.
    destruct (existsb _ (excluded_list (config (with_excluded w x))));
      destruct (existsb _ (excluded_list (config (with_excluded w y))));
      simpl; split; auto; intros [H|H]; auto; discriminate.
  - split; [discriminate | intros [H|H]; discriminate].
Qed.





End Pieces.
